(** * The user-records API of [main.py]

    A shallow embedding of the FastAPI service in [main.py]: the pydantic
    models [UserCreate], [UserUpdate] and [UserInDB], the four store
    functions ([nuevo_usuario], [obtener_usuarios],
    [obtener_usuarios_por_profesion], [editar_usuario]) and the four routes
    built on them.

    The SQLite table [personas] is threaded through every function as an
    explicit state: a function takes the committed table and returns its
    Python outcome (a value or a raised exception) together with the table
    that is committed when the connection is closed.

    Identifiers are Python integers.  Failures of the storage engine itself
    (no table, no disk space, no key left to assign) are left out of the
    model. *)

From Stdlib Require Import ZArith List Ascii String Bool Lia.
Import ListNotations.

Local Open Scope string_scope.
Local Open Scope list_scope.
Local Open Scope Z_scope.

(** ** Python outcomes *)

(** The exceptions the module can raise.  [HTTPException] carries its
    status code; [ValidationError] is pydantic's, raised by a model
    constructor; [RequestValidationError] is FastAPI's, raised when a request
    body does not fit the model of the route; [UnboundLocalError] is Python's,
    raised on reading a local variable that was never assigned;
    [OverflowError] is raised by [sqlite3] for an integer parameter that does
    not fit the integers of the engine. *)
Inductive exn : Type :=
| HTTPException (status_code : Z)
| ValidationError
| RequestValidationError
| UnboundLocalError
| OverflowError.

Inductive result (A : Type) : Type :=
| Ok (a : A)
| Raise (e : exn).

Arguments Ok {A} a.
Arguments Raise {A} e.

Definition bind {A B : Type} (m : result A) (k : A -> result B) : result B :=
  match m with
  | Ok a => k a
  | Raise e => Raise e
  end.

Declare Scope py_scope.
Delimit Scope py_scope with py.
Notation "x <- m ;; k" := (bind m (fun x => k))
  (at level 100, m at next level, right associativity) : py_scope.
Local Open Scope py_scope.

(** The list comprehension [[f(row) for row in rows]]: the first element on
    which [f] raises aborts the whole comprehension. *)
Fixpoint comprehension {A B : Type} (f : A -> result B) (rows : list A)
  : result (list B) :=
  match rows with
  | [] => Ok []
  | row :: rest =>
      u <- f row ;;
      us <- comprehension f rest ;;
      Ok (u :: us)
  end.

(** ** The pydantic models *)

Module UserCreate.
Record t : Type := Build
  { username : string;
    nacimiento : string;
    numero : string;
    gmail : string;
    profesion : string;
    certificado_N : string }.
End UserCreate.

(** [certificado_N: Optional[str] = None]. *)
Module UserUpdate.
Record t : Type := Build
  { username : string;
    nacimiento : string;
    numero : string;
    gmail : string;
    profesion : string;
    certificado_N : option string }.
End UserUpdate.

(** [class UserInDB(UserCreate)] adds [id: int]. *)
Module UserInDB.
Record t : Type := Build
  { id : Z;
    username : string;
    nacimiento : string;
    numero : string;
    gmail : string;
    profesion : string;
    certificado_N : string }.
End UserInDB.

(** ** The table [personas] *)

(** Modelled from the spec: the [CREATE TABLE] statement of [personas] is
    not part of the sources.  Following the persisted state layout of the
    specification, a row has seven columns: an integer primary key and the
    six record fields stored as text.  A text column holds a string or SQL
    NULL, which the [sqlite3] module reads and writes as [None]. *)
Module Row.
Record t : Type := Build
  { id : Z;
    username : option string;
    nacimiento : option string;
    numero : option string;
    gmail : option string;
    profesion : option string;
    certificado_N : option string }.
End Row.

Definition table : Type := list Row.t.

Definition ids (db : table) : list Z := map Row.id db.

(** The integers of the engine: signed, 64 bits wide. *)
Definition int64 (z : Z) : bool :=
  (- 2 ^ 63 <=? z) && (z <=? 2 ^ 63 - 1).

(** A Python integer passed for a [?] of a statement: [sqlite3] converts it
    to an integer of the engine and raises [OverflowError] when it does not
    fit.  The keys of the rows are integers of the engine; the model, which
    takes the rule for new keys from the specification, puts no bound on
    them, and so lets a key the table holds fit.  On a table whose keys are
    64-bit integers, as every table of the engine is, [binds id db] is
    [int64 id] (lemma [binds_int64]). *)
Definition binds (id : Z) (db : table) : bool :=
  int64 id || existsb (Z.eqb id) (ids db).

Fixpoint max_rowid (db : table) : option Z :=
  match db with
  | [] => None
  | r :: rest =>
      match max_rowid rest with
      | None => Some (Row.id r)
      | Some m => Some (Z.max (Row.id r) m)
      end
  end.

(** Modelled from the spec: the declaration of the key column of
    [personas] is not part of the sources.  The specification has the store
    generate a new unique integer identifier on creation; this is SQLite's
    rule for an integer primary key: 1 in an empty table, otherwise one more
    than the largest key present. *)
Definition next_rowid (db : table) : Z :=
  match max_rowid db with
  | None => 1
  | Some m => m + 1
  end.

(** [INSERT INTO personas (...) VALUES (?, ?, ?, ?, ?, ?)]: the table with
    the new row, and [cursor.lastrowid]. *)
Definition sql_insert (username nacimiento numero gmail profesion
                       certificado_N : option string) (db : table)
  : table * Z :=
  let rowid := next_rowid db in
  (db ++ [Row.Build rowid username nacimiento numero gmail profesion
            certificado_N],
   rowid).

(** [SELECT * FROM personas]. *)
Definition sql_select_all (db : table) : list Row.t := db.

(** The comparison [profesion = ?] of the [WHERE] clause: text against text
    is compared character by character, and NULL equals nothing. *)
Definition profesion_is (profesion : string) (r : Row.t) : bool :=
  match Row.profesion r with
  | Some p => String.eqb p profesion
  | None => false
  end.

(** [SELECT * FROM personas WHERE profesion = ?]. *)
Definition sql_select_profesion (profesion : string) (db : table)
  : list Row.t :=
  filter (profesion_is profesion) db.

(** [UPDATE personas SET username=?, ..., certificado_N=? WHERE id=?]: the
    table with every row of that [id] overwritten, and [cursor.rowcount]. *)
Definition sql_update (username nacimiento numero gmail profesion
                       certificado_N : option string) (id : Z) (db : table)
  : table * nat :=
  (map (fun r =>
          if Row.id r =? id
          then Row.Build (Row.id r) username nacimiento numero gmail profesion
                 certificado_N
          else r) db,
   List.length (filter (fun r => Row.id r =? id) db)).

(** ** Request bodies *)

(** The JSON body of [POST /users] and [PUT /users/{id}]: each of the six
    keys is either a JSON string or missing (or null). *)
Module Body.
Record t : Type := Build
  { username : option string;
    nacimiento : option string;
    numero : option string;
    gmail : option string;
    profesion : option string;
    certificado_N : option string }.
End Body.


(** ** Requests and replies *)

(** The four requests of the API. *)
Inductive request : Type :=
| GetAll
| GetProfesion (profesion : string)
| PostUser (body : Body.t)
| PutUser (id : Z) (body : Body.t).

(** What a route hands back: a list of records for the two [GET] routes,
    one record for [POST] and [PUT]. *)
Inductive reply : Type :=
| Users (r : result (list UserInDB.t))
| User (r : result UserInDB.t).


(** [PUT /users/{id}] addressed to the row [id]. *)
Definition updates_id (id : Z) (q : request) : bool :=
  match q with
  | PutUser i _ => i =? id
  | _ => false
  end.

(** The input of a create extended with an identifier. *)
Definition with_id (id : Z) (x : UserCreate.t) : UserInDB.t :=
  UserInDB.Build id (UserCreate.username x) (UserCreate.nacimiento x)
    (UserCreate.numero x) (UserCreate.gmail x) (UserCreate.profesion x)
    (UserCreate.certificado_N x).

(** The row [INSERT] writes for a create. *)
Definition row_of_create (id : Z) (x : UserCreate.t) : Row.t :=
  Row.Build id (Some (UserCreate.username x)) (Some (UserCreate.nacimiento x))
    (Some (UserCreate.numero x)) (Some (UserCreate.gmail x))
    (Some (UserCreate.profesion x)) (Some (UserCreate.certificado_N x)).

(** The row [UPDATE] writes over the row [id]. *)
Definition row_of_update (id : Z) (x : UserUpdate.t) : Row.t :=
  Row.Build id (Some (UserUpdate.username x)) (Some (UserUpdate.nacimiento x))
    (Some (UserUpdate.numero x)) (Some (UserUpdate.gmail x))
    (Some (UserUpdate.profesion x)) (UserUpdate.certificado_N x).

(** ** Sample data *)

(** The record of the specification's example, and values derived from it:
    the same person sent as an update without [certificado_N], a second
    cook, and a body whose [username] is the empty string. *)
Module Sample.
Definition ana : UserCreate.t :=
  UserCreate.Build "ana" "1990-01-01" "555" "ana@x.com" "chef" "c1".

Definition ana_body : Body.t :=
  Body.Build (Some "ana") (Some "1990-01-01") (Some "555") (Some "ana@x.com")
    (Some "chef") (Some "c1").

Definition sin_certificado : UserUpdate.t :=
  UserUpdate.Build "ana" "1990-01-01" "555" "ana@x.com" "chef" None.

Definition sin_certificado_body : Body.t :=
  Body.Build (Some "ana") (Some "1990-01-01") (Some "555") (Some "ana@x.com")
    (Some "chef") None.

Definition con_certificado : UserUpdate.t :=
  UserUpdate.Build "ana" "1990-01-01" "556" "ana@x.com" "chef" (Some "c2").

Definition bruno : UserCreate.t :=
  UserCreate.Build "bruno" "1985-05-05" "777" "bruno@x.com" "chef" "c9".


Definition ana_row : Row.t :=
  Row.Build 1 (Some "ana") (Some "1990-01-01") (Some "555")
    (Some "ana@x.com") (Some "chef") (Some "c1").

Definition pilot_row : Row.t :=
  Row.Build 2 (Some "luz") (Some "1979-09-09") (Some "888")
    (Some "luz@x.com") (Some "pilot") (Some "c4").

(** The row of [ana] once an update without certificate went over it. *)
Definition ana_erased : Row.t :=
  Row.Build 1 (Some "ana") (Some "1990-01-01") (Some "555")
    (Some "ana@x.com") (Some "chef") None.
End Sample.

(** ** The page [pagina/main.py] *)

Module Pagina.

(** The dictionary [new_user] of [add_user]. *)
Record NewUser : Type := BuildNewUser
  { id : Z;
    username : string;
    nacimiento : string;
    numero : string;
    gmail : string;
    profesion : string }.

(** What the module keeps between requests: the global list [users], and
    the file [users.json] ([None] as long as the file does not exist). *)
Record state : Type := State
  { users : list NewUser;
    users_json : option (list NewUser) }.

(** [users = []], run when the module is loaded. *)
Definition loaded (file : option (list NewUser)) : state := State [] file.

(** The calls into [requests] and the built-in [int], as parameters: each
    gives [None] when the call raises. *)
Record library (response json : Type) : Type := Library
  { int : string -> option Z;
    requests_get : string -> option response;
    requests_post : string -> NewUser -> option response;
    status_code : response -> Z;
    response_json : response -> option json }.

Arguments int {response json} _ _.
Arguments requests_get {response json} _ _.
Arguments requests_post {response json} _ _ _.
Arguments status_code {response json} _ _.
Arguments response_json {response json} _ _.

(** What a view function returns. *)
Inductive view (json : Type) : Type :=
| render_index (users : list NewUser)
| render_users_by_profession (users : json) (profesion : string)
| render_add_user
| jsonify (j : json)
| text (body : string) (status : Z)
| redirect (endpoint : string).

Arguments render_index {json} users.
Arguments render_users_by_profession {json} users profesion.
Arguments render_add_user {json}.
Arguments jsonify {json} j.
Arguments text {json} body status.
Arguments redirect {json} endpoint.

(** How a view function fails: a key missing from [request.form] is
    answered 400, any other exception 500. *)
Inductive failure : Type :=
| BadRequestKeyError
| InternalServerError.

(** A statement of a view function: it goes on to the next statement with
    a value, or leaves the function by [return], or raises. *)
Inductive step (R A : Type) : Type :=
| Value (a : A) (st : state)
| Return (r : R) (st : state)
| Fail (e : failure) (st : state).

Arguments Value {R A} a st.
Arguments Return {R A} r st.
Arguments Fail {R A} e st.

Definition code (R A : Type) : Type := state -> step R A.

Definition next {R A B : Type} (m : code R A) (k : A -> code R B)
  : code R B :=
  fun st =>
    match m st with
    | Value a st' => k a st'
    | Return r st' => Return r st'
    | Fail e st' => Fail e st'
    end.

Declare Scope view_scope.
Delimit Scope view_scope with view.
Notation "x <- m ;; k" := (next m (fun x => k))
  (at level 100, m at next level, right associativity) : view_scope.

Definition return_ {R A : Type} (r : R) : code R A := fun st => Return r st.

(** A library call that may raise. *)
Definition call {R A : Type} (a : option A) : code R A :=
  fun st =>
    match a with
    | Some v => Value v st
    | None => Fail InternalServerError st
    end.

(** [request.form[key]]. *)
Fixpoint form_get (form : list (string * string)) (key : string)
  : option string :=
  match form with
  | [] => None
  | (k, v) :: rest => if String.eqb k key then Some v else form_get rest key
  end.

Definition request_form {R : Type} (form : list (string * string))
  (key : string) : code R string :=
  fun st =>
    match form_get form key with
    | Some v => Value v st
    | None => Fail BadRequestKeyError st
    end.

(** [users.append(new_user)]. *)
Definition users_append {R : Type} (new_user : NewUser) : code R unit :=
  fun st => Value tt (State (users st ++ [new_user]) (users_json st)).

(** [with open('users.json', 'w') as f: json.dump(users, f)]. *)
Definition json_dump {R : Type} : code R unit :=
  fun st => Value tt (State (users st) (Some (users st))).

Definition API_URL : string := "http://localhost:8002".

(** [users_by_profession]. *)
Definition users_by_profession {response json : Type}
  (lib : library response json) (profesion : string)
  : code (view json) unit :=
  (response <- call (requests_get lib (API_URL ++ "/users/" ++ profesion)%string) ;;
   if status_code lib response =? 200
   then
     users <- call (response_json lib response) ;;
     return_ (render_users_by_profession users profesion)
   else
     return_ (text "Error al obtener los usuarios por profesión" 500))%view.

(** [add_user].  The statements after [return response.json()] are part of
    the function as it is written. *)
Definition add_user {response json : Type} (lib : library response json)
  (method : string) (form : list (string * string))
  : code (view json) unit :=
  (if String.eqb method "POST"
   then
     id_text <- request_form form "id" ;;
     id <- call (int lib id_text) ;;
     username <- request_form form "username" ;;
     nacimiento <- request_form form "nacimiento" ;;
     numero <- request_form form "numero" ;;
     gmail <- request_form form "gmail" ;;
     profesion <- request_form form "profesion" ;;
     let new_user :=
       BuildNewUser id username nacimiento numero gmail profesion in
     response <-
       call (requests_post lib (API_URL ++ "/users")%string new_user) ;;
     j <- call (response_json lib response) ;;
     _ <- return_ (A := unit) (jsonify j) ;;
     _ <- users_append new_user ;;
     _ <- json_dump ;;
     return_ (redirect "index")
   else return_ render_add_user)%view.

(** [index]. *)
Definition index {json : Type} : code (view json) unit :=
  fun st => Return (render_index (users st)) st.

(** The requests the page serves. *)
Inductive request : Type :=
| Index
| UsersByProfession (profesion : string)
| AddUser (method : string) (form : list (string * string)).

Definition serve {response json : Type} (lib : library response json)
  (q : request) : code (view json) unit :=
  match q with
  | Index => index
  | UsersByProfession profesion => users_by_profession lib profesion
  | AddUser method form => add_user lib method form
  end.

(** The state a statement leaves. *)
Definition state_of {R A : Type} (s : step R A) : state :=
  match s with
  | Value _ st => st
  | Return _ st => st
  | Fail _ st => st
  end.

(** The state after a sequence of requests. *)
Fixpoint run {response json : Type} (lib : library response json)
  (qs : list request) (st : state) : state :=
  match qs with
  | [] => st
  | q :: rest => run lib rest (state_of (serve lib q st))
  end.

End Pagina.

(** ** Connections *)

(** What a call does to the database file, in order. *)
Inductive event : Type :=
| Connect
| Execute
| Commit
| Close.

(** The database file [personas.db] as the functions see it: the committed
    table, the number of connections that are open, and the events so
    far. *)
Record world : Type := World
  { disk : table;
    opened : nat;
    log : list event }.

(** A connection [sqlite3.connect] returned: the table as this connection
    sees it, that is the committed table with the changes of the connection
    that are not committed yet. *)
Record connection : Type := Connection
  { view : table }.

(** A Python computation that touches the database file: it ends in a value
    or in an exception, and leaves the file in a new state either way. *)
Definition io (A : Type) : Type := world -> result A * world.

Definition ret {A : Type} (a : A) : io A := fun w => (Ok a, w).

Definition raise {A : Type} (e : exn) : io A := fun w => (Raise e, w).

Definition lift {A : Type} (r : result A) : io A := fun w => (r, w).

Definition and_then {A B : Type} (m : io A) (k : A -> io B) : io B :=
  fun w =>
    match m w with
    | (Ok a, w') => k a w'
    | (Raise e, w') => (Raise e, w')
    end.

Declare Scope io_scope.
Delimit Scope io_scope with io.
Notation "x <- m ;; k" := (and_then m (fun x => k))
  (at level 100, m at next level, right associativity) : io_scope.

(** [sqlite3.connect("personas.db")]. *)
Definition connect : io connection :=
  fun w =>
    (Ok (Connection (disk w)),
     World (disk w) (S (opened w)) (log w ++ [Connect])).

(** [cursor.execute(...)] on a cursor of [conn]: the statement runs on the
    view of the connection and changes nothing on disk. *)
Definition execute {A : Type} (statement : table -> table * A)
  (conn : connection) : io (connection * A) :=
  fun w =>
    let '(t, a) := statement (view conn) in
    (Ok (Connection t, a), World (disk w) (opened w) (log w ++ [Execute])).

(** [cursor.execute(...)] with the integer [id] among its parameters: the
    call raises [OverflowError], and the statement does not run, when [id]
    cannot be bound. *)
Definition execute_int {A : Type} (id : Z) (statement : table -> table * A)
  (conn : connection) : io (connection * A) :=
  fun w =>
    if binds id (view conn)
    then execute statement conn w
    else (Raise OverflowError,
          World (disk w) (opened w) (log w ++ [Execute])).

(** [conn.commit()]: the view of the connection becomes the committed
    table. *)
Definition commit (conn : connection) : io unit :=
  fun w => (Ok tt, World (view conn) (opened w) (log w ++ [Commit])).

(** [conn.close()]: changes that were not committed are dropped with the
    connection. *)
Definition close (w : world) : world :=
  World (disk w) (Nat.pred (opened w)) (log w ++ [Close]).

(** [with get_db_connection() as conn: body]: the [finally] clause closes
    the connection whether the body returns or raises. *)
Definition get_db_connection {A : Type} (body : connection -> io A) : io A :=
  fun w =>
    match connect w with
    | (Ok conn, w1) => let '(r, w2) := body conn w1 in (r, close w2)
    | (Raise e, w1) => (Raise e, w1)
    end.

(** ** The clients *)

(** The dictionary [new_user] that [add_user] of [pagina/main.py] posts to
    [/users], read as a body of the API: its key [id] is no field of
    [UserCreate], and it has no key [certificado_N].  The dictionary [user]
    of [peticiones.py] has the same keys. *)
Definition new_user (username nacimiento numero gmail profesion : string)
  : Body.t :=
  Body.Build (Some username) (Some nacimiento) (Some numero) (Some gmail)
    (Some profesion) None.

(** A [PUT] that carries a certificate, or any other request. *)
Definition carries_certificate (q : request) : bool :=
  match q with
  | PutUser _ body =>
      match Body.certificado_N body with
      | Some _ => true
      | None => false
      end
  | _ => true
  end.

(** A stand-in for the e-mail check, used to run the model on concrete
    requests: it accepts, unchanged, a string that has an [@] after at least
    one other character. *)
Fixpoint has_at (s : string) : bool :=
  match s with
  | EmptyString => false
  | String c rest => if Ascii.eqb c "@"%char then true else has_at rest
  end.

Definition at_sign_EmailStr (s : string) : option string :=
  match s with
  | EmptyString => None
  | String c rest =>
      if Ascii.eqb c "@"%char then None
      else if has_at rest then Some s else None
  end.

Section Api.

(** pydantic's [EmailStr] is a library type: its validation is a parameter
    of the model.  It yields the validated address, or nothing when the
    string is not an e-mail address. *)
Variable EmailStr : string -> option string.

(** A field annotated [str]: [None] is refused. *)
Definition str_field (v : option string) : result string :=
  match v with
  | Some s => Ok s
  | None => Raise ValidationError
  end.

(** A field annotated [EmailStr]. *)
Definition email_field (v : option string) : result string :=
  match v with
  | Some s =>
      match EmailStr s with
      | Some s' => Ok s'
      | None => Raise ValidationError
      end
  | None => Raise ValidationError
  end.

(** The constructor call [UserInDB(id=..., username=..., ...)]: it validates
    every argument against the annotation of its field. *)
Definition new_UserInDB (id : Z) (username nacimiento numero gmail profesion
                                  certificado_N : option string)
  : result UserInDB.t :=
  username' <- str_field username ;;
  nacimiento' <- str_field nacimiento ;;
  numero' <- str_field numero ;;
  gmail' <- email_field gmail ;;
  profesion' <- str_field profesion ;;
  certificado_N' <- str_field certificado_N ;;
  Ok (UserInDB.Build id username' nacimiento' numero' gmail' profesion'
        certificado_N').

(** [UserInDB(id=row[0], username=row[1], ..., certificado_N=row[6])]. *)
Definition user_of_row (row : Row.t) : result UserInDB.t :=
  new_UserInDB (Row.id row) (Row.username row) (Row.nacimiento row)
    (Row.numero row) (Row.gmail row) (Row.profesion row)
    (Row.certificado_N row).

(** ** The store functions *)

(** [nuevo_usuario]: the insert is committed inside the [with] block; the
    record is built after it. *)
Definition nuevo_usuario (user : UserCreate.t) (db : table)
  : result UserInDB.t * table :=
  let '(db', user_id) :=
    sql_insert (Some (UserCreate.username user))
      (Some (UserCreate.nacimiento user)) (Some (UserCreate.numero user))
      (Some (UserCreate.gmail user)) (Some (UserCreate.profesion user))
      (Some (UserCreate.certificado_N user)) db in
  (new_UserInDB user_id (Some (UserCreate.username user))
     (Some (UserCreate.nacimiento user)) (Some (UserCreate.numero user))
     (Some (UserCreate.gmail user)) (Some (UserCreate.profesion user))
     (Some (UserCreate.certificado_N user)),
   db').

(** The loop [for row in rows:] of [obtener_usuarios].  Its body assigns the
    local variable [users] the comprehension over all the [rows]; [users]
    is [None] here as long as the variable is unbound, and [todo] are the
    rows still to iterate over.  The [print] of the body writes to the
    console only. *)
Fixpoint for_row_in (todo rows : list Row.t) (users : option (list UserInDB.t))
  : result (option (list UserInDB.t)) :=
  match todo with
  | [] => Ok users
  | _ :: todo' =>
      us <- comprehension user_of_row rows ;;
      for_row_in todo' rows (Some us)
  end.

(** [obtener_usuarios]: [return users] reads the variable the loop body
    assigns. *)
Definition obtener_usuarios (db : table) : result (list UserInDB.t) :=
  let rows := sql_select_all db in
  users <- for_row_in rows rows None ;;
  match users with
  | Some us => Ok us
  | None => Raise UnboundLocalError
  end.

(** [obtener_usuarios_por_profesion]. *)
Definition obtener_usuarios_por_profesion (profesion : string) (db : table)
  : result (list UserInDB.t) :=
  comprehension user_of_row (sql_select_profesion profesion db).

(** [editar_usuario]: [cursor.execute] raises [OverflowError] when [id]
    cannot be bound, and the statement does not run.  When [rowcount] is 0
    the exception leaves the [with] block before [commit], and closing the
    connection drops the statement; otherwise the update is committed and
    the record is built after it. *)
Definition editar_usuario (id : Z) (user : UserUpdate.t) (db : table)
  : result UserInDB.t * table :=
  if binds id db
  then
    let '(db', rowcount) :=
      sql_update (Some (UserUpdate.username user))
        (Some (UserUpdate.nacimiento user)) (Some (UserUpdate.numero user))
        (Some (UserUpdate.gmail user)) (Some (UserUpdate.profesion user))
        (UserUpdate.certificado_N user) id db in
    if Nat.eqb rowcount 0
    then (Raise (HTTPException 404), db)
    else
      (new_UserInDB id (Some (UserUpdate.username user))
         (Some (UserUpdate.nacimiento user)) (Some (UserUpdate.numero user))
         (Some (UserUpdate.gmail user)) (Some (UserUpdate.profesion user))
         (UserUpdate.certificado_N user),
       db')
  else (Raise OverflowError, db).

(** ** The routes *)

(** FastAPI's parsing of a body against [UserCreate]: six required fields. *)
Definition parse_UserCreate (b : Body.t) : result UserCreate.t :=
  match Body.username b, Body.nacimiento b, Body.numero b, Body.gmail b,
        Body.profesion b, Body.certificado_N b with
  | Some u, Some n, Some m, Some g, Some p, Some c =>
      match EmailStr g with
      | Some g' => Ok (UserCreate.Build u n m g' p c)
      | None => Raise RequestValidationError
      end
  | _, _, _, _, _, _ => Raise RequestValidationError
  end.

(** FastAPI's parsing of a body against [UserUpdate]: [certificado_N] may be
    missing and then takes its default [None]. *)
Definition parse_UserUpdate (b : Body.t) : result UserUpdate.t :=
  match Body.username b, Body.nacimiento b, Body.numero b, Body.gmail b,
        Body.profesion b with
  | Some u, Some n, Some m, Some g, Some p =>
      match EmailStr g with
      | Some g' => Ok (UserUpdate.Build u n m g' p (Body.certificado_N b))
      | None => Raise RequestValidationError
      end
  | _, _, _, _, _ => Raise RequestValidationError
  end.

(** [GET /]. *)
Definition obtener_todos_los_usuarios (db : table)
  : result (list UserInDB.t) :=
  obtener_usuarios db.

(** [GET /users/{profesion}]: [if not users: raise HTTPException(404)]. *)
Definition obtener_usuarios_por_profesion_route (profesion : string)
  (db : table) : result (list UserInDB.t) :=
  users <- obtener_usuarios_por_profesion profesion db ;;
  match users with
  | [] => Raise (HTTPException 404)
  | _ :: _ => Ok users
  end.

(** [POST /users]. *)
Definition crear_nuevo_usuario (body : Body.t) (db : table)
  : result UserInDB.t * table :=
  match parse_UserCreate body with
  | Ok user => nuevo_usuario user db
  | Raise e => (Raise e, db)
  end.

(** [PUT /users/{id}]: an [HTTPException] is raised again as it is, any
    other exception becomes an [HTTPException] of status 500. *)
Definition editar_usuario_route (id : Z) (body : Body.t) (db : table)
  : result UserInDB.t * table :=
  match parse_UserUpdate body with
  | Ok user =>
      match editar_usuario id user db with
      | (Ok u, db') => (Ok u, db')
      | (Raise (HTTPException c), db') => (Raise (HTTPException c), db')
      | (Raise _, db') => (Raise (HTTPException 500), db')
      end
  | Raise e => (Raise e, db)
  end.

(** The status of the HTTP response: 200 for a returned value, the code of
    an [HTTPException], 422 for a body that failed validation, and 500 for
    any exception no handler catches. *)
Definition status_code {A : Type} (r : result A) : Z :=
  match r with
  | Ok _ => 200
  | Raise (HTTPException c) => c
  | Raise RequestValidationError => 422
  | Raise ValidationError => 500
  | Raise UnboundLocalError => 500
  | Raise OverflowError => 500
  end.

(** ** Histories *)

(** One request served against the table. *)
Definition serve (q : request) (db : table) : reply * table :=
  match q with
  | GetAll => (Users (obtener_todos_los_usuarios db), db)
  | GetProfesion p => (Users (obtener_usuarios_por_profesion_route p db), db)
  | PostUser body =>
      let '(r, db') := crear_nuevo_usuario body db in (User r, db')
  | PutUser id body =>
      let '(r, db') := editar_usuario_route id body db in (User r, db')
  end.

(** A sequence of requests served one after the other. *)
Fixpoint run (qs : list request) (db : table) : list reply * table :=
  match qs with
  | [] => ([], db)
  | q :: rest =>
      let '(r, db') := serve q db in
      let '(rs, db'') := run rest db' in
      (r :: rs, db'')
  end.

(** A [UserCreate] instance holds an address that went through [EmailStr]:
    validating it again gives it back. *)
Definition validated (x : UserCreate.t) : Prop :=
  EmailStr (UserCreate.gmail x) = Some (UserCreate.gmail x).

(** A row from which [UserInDB] can be built. *)
Definition readable (r : Row.t) : bool :=
  match user_of_row r with
  | Ok _ => true
  | Raise _ => false
  end.

(** ** The store functions on the database file *)

(** The four store functions once more, statement by statement, with the
    connection of [get_db_connection] made explicit. *)
Definition nuevo_usuario_io (user : UserCreate.t) : io UserInDB.t :=
  (user_id <-
     get_db_connection (fun conn =>
       r <- execute
              (sql_insert (Some (UserCreate.username user))
                 (Some (UserCreate.nacimiento user))
                 (Some (UserCreate.numero user))
                 (Some (UserCreate.gmail user))
                 (Some (UserCreate.profesion user))
                 (Some (UserCreate.certificado_N user))) conn ;;
       _ <- commit (fst r) ;;
       ret (snd r)) ;;
   lift (new_UserInDB user_id (Some (UserCreate.username user))
           (Some (UserCreate.nacimiento user))
           (Some (UserCreate.numero user)) (Some (UserCreate.gmail user))
           (Some (UserCreate.profesion user))
           (Some (UserCreate.certificado_N user))))%io.

Definition obtener_usuarios_io : io (list UserInDB.t) :=
  (users <-
     get_db_connection (fun conn =>
       r <- execute (fun t => (t, sql_select_all t)) conn ;;
       lift (for_row_in (snd r) (snd r) None)) ;;
   match users with
   | Some us => ret us
   | None => raise UnboundLocalError
   end)%io.

Definition obtener_usuarios_por_profesion_io (profesion : string)
  : io (list UserInDB.t) :=
  get_db_connection (fun conn =>
    r <- execute (fun t => (t, sql_select_profesion profesion t)) conn ;;
    lift (comprehension user_of_row (snd r)))%io.

Definition editar_usuario_io (id : Z) (user : UserUpdate.t)
  : io UserInDB.t :=
  (_ <-
     get_db_connection (fun conn =>
       r <- execute_int id
              (sql_update (Some (UserUpdate.username user))
                 (Some (UserUpdate.nacimiento user))
                 (Some (UserUpdate.numero user))
                 (Some (UserUpdate.gmail user))
                 (Some (UserUpdate.profesion user))
                 (UserUpdate.certificado_N user) id) conn ;;
       if Nat.eqb (snd r) 0
       then raise (HTTPException 404)
       else commit (fst r)) ;;
   lift (new_UserInDB id (Some (UserUpdate.username user))
           (Some (UserUpdate.nacimiento user))
           (Some (UserUpdate.numero user)) (Some (UserUpdate.gmail user))
           (Some (UserUpdate.profesion user))
           (UserUpdate.certificado_N user)))%io.

(** An e-mail validation that accepts what it returned, unchanged. *)
Definition idempotent : Prop :=
  forall s s', EmailStr s = Some s' -> EmailStr s' = Some s'.

(** ** Auxiliary facts *)

Lemma bind_Ok {A B : Type} (m : result A) (k : A -> result B) (b : B) :
  bind m k = Ok b -> exists a, m = Ok a /\ k a = Ok b.
Proof.
  destruct m as [a|e]; simpl; intros H; [exists a; auto | discriminate].
Qed.

Lemma comprehension_Ok {A B : Type} (f : A -> result B) (rows : list A)
  (us : list B) :
  comprehension f rows = Ok us <-> Forall2 (fun r u => f r = Ok u) rows us.
Proof.
  revert us; induction rows as [|r rows IH]; intros us; simpl.
  - split; intros H.
    + inversion H; constructor.
    + inversion H; reflexivity.
  - split; intros H.
    + apply bind_Ok in H as [u [Hu H]].
      apply bind_Ok in H as [us' [Hus H]].
      inversion H; subst. constructor; [assumption | now apply IH].
    + inversion H as [|r' u rows' us' Hu Hrest]; subst.
      rewrite Hu; simpl. apply IH in Hrest. rewrite Hrest; reflexivity.
Qed.

Lemma user_of_row_Ok (r : Row.t) (u : UserInDB.t) :
  user_of_row r = Ok u -> UserInDB.id u = Row.id r.
Proof.
  unfold user_of_row, new_UserInDB, str_field, email_field.
  destruct (Row.username r), (Row.nacimiento r), (Row.numero r),
    (Row.gmail r) as [g|]; simpl; try discriminate.
  destruct (EmailStr g); simpl; try discriminate.
  destruct (Row.profesion r), (Row.certificado_N r); simpl; try discriminate.
  intros H; inversion H; reflexivity.
Qed.

Lemma new_UserInDB_Raise (id : Z) (a b c d e f : option string) (x : exn) :
  new_UserInDB id a b c d e f = Raise x -> x = ValidationError.
Proof.
  unfold new_UserInDB, str_field, email_field.
  destruct a, b, c, d as [g|]; simpl; try congruence.
  destruct (EmailStr g); simpl; try congruence.
  destruct e, f; simpl; congruence.
Qed.

Lemma comprehension_Raise (rows : list Row.t) (x : exn) :
  comprehension user_of_row rows = Raise x -> x = ValidationError.
Proof.
  induction rows as [|r rows IH]; simpl; [discriminate|].
  destruct (user_of_row r) as [u|e] eqn:Hr; simpl.
  - destruct (comprehension user_of_row rows); simpl; [discriminate|].
    intros H; inversion H; subst. now apply IH.
  - intros H; inversion H; subst.
    now apply new_UserInDB_Raise in Hr.
Qed.

Lemma comprehension_unreadable (rows : list Row.t) (r : Row.t) :
  In r rows -> readable r = false ->
  comprehension user_of_row rows = Raise ValidationError.
Proof.
  intros Hin Hr.
  destruct (comprehension user_of_row rows) as [us|x] eqn:Hc.
  - exfalso. apply comprehension_Ok in Hc.
    induction Hc as [|r' u rows us Hu _ IH]; [contradiction|].
    destruct Hin as [->|Hin]; [|now apply IH].
    unfold readable in Hr. rewrite Hu in Hr. discriminate.
  - now rewrite (comprehension_Raise _ _ Hc).
Qed.

Lemma comprehension_readable (rows : list Row.t) :
  (forall r, In r rows -> readable r = true) ->
  exists us, comprehension user_of_row rows = Ok us.
Proof.
  induction rows as [|r rows IH]; intros H; simpl.
  - now exists [].
  - assert (Hr : readable r = true) by (apply H; now left).
    unfold readable in Hr.
    destruct (user_of_row r) as [u|]; [|discriminate].
    destruct IH as [us Hus]; [intros r' Hr'; apply H; now right|].
    rewrite Hus. now exists (u :: us).
Qed.

Lemma null_certificate_unreadable (r : Row.t) :
  Row.certificado_N r = None -> readable r = false.
Proof.
  intros H. unfold readable, user_of_row, new_UserInDB, str_field.
  rewrite H.
  destruct (Row.username r), (Row.nacimiento r), (Row.numero r),
    (email_field (Row.gmail r)), (Row.profesion r); reflexivity.
Qed.

Lemma for_row_in_cons (r : Row.t) (todo rows : list Row.t)
  (users : option (list UserInDB.t)) :
  for_row_in (r :: todo) rows users =
  bind (comprehension user_of_row rows) (fun us => Ok (Some us)).
Proof.
  revert r users; induction todo as [|r' todo IH]; intros r users.
  - simpl. destruct (comprehension user_of_row rows); reflexivity.
  - change (for_row_in (r :: r' :: todo) rows users)
      with (bind (comprehension user_of_row rows)
              (fun us => for_row_in (r' :: todo) rows (Some us))).
    destruct (comprehension user_of_row rows) as [us|e] eqn:Hc; cbn [bind];
      [|reflexivity].
    rewrite IH. reflexivity.
Qed.

Lemma obtener_usuarios_cons (r : Row.t) (db : table) :
  obtener_usuarios (r :: db) = comprehension user_of_row (r :: db).
Proof.
  unfold obtener_usuarios, sql_select_all. rewrite for_row_in_cons.
  destruct (comprehension user_of_row (r :: db)); reflexivity.
Qed.

(** ** The statements [INSERT] and [UPDATE] *)

Lemma rowcount_zero (id : Z) (db : table) :
  List.length (filter (fun r => Row.id r =? id) db) = 0%nat <->
  ~ In id (ids db).
Proof.
  induction db as [|r db IH]; simpl.
  - split; [intros _ [] | reflexivity].
  - destruct (Z.eqb_spec (Row.id r) id) as [E|E]; simpl.
    + split; [discriminate | intros H; exfalso; apply H; now left].
    + rewrite IH. split; [intros H [H'|H']; auto | intros H H'; apply H; auto].
Qed.

Lemma map_absent (g : Row.t -> Row.t) (id : Z) (db : table) :
  ~ In id (ids db) ->
  map (fun r => if Row.id r =? id then g r else r) db = db.
Proof.
  induction db as [|r db IH]; simpl; intros H; [reflexivity|].
  destruct (Z.eqb_spec (Row.id r) id) as [E|E].
  - exfalso; apply H; now left.
  - f_equal. apply IH. intros H'; apply H; now right.
Qed.

Lemma sql_update_absent (a b c d e f : option string) (id : Z) (db : table) :
  ~ In id (ids db) -> sql_update a b c d e f id db = (db, 0%nat).
Proof.
  intros H. unfold sql_update.
  rewrite (map_absent _ id db H).
  apply rowcount_zero in H. now rewrite H.
Qed.

Lemma existsb_ids (id : Z) (db : table) :
  existsb (Z.eqb id) (ids db) = true <-> In id (ids db).
Proof.
  rewrite existsb_exists. split.
  - intros [i [Hi E]]. apply Z.eqb_eq in E. now subst.
  - intros H. exists id. split; [assumption | apply Z.eqb_refl].
Qed.

Lemma binds_present (id : Z) (db : table) :
  In id (ids db) -> binds id db = true.
Proof.
  intros H. unfold binds. apply existsb_ids in H. rewrite H.
  apply orb_true_r.
Qed.

Lemma binds_absent (id : Z) (db : table) :
  ~ In id (ids db) -> binds id db = int64 id.
Proof.
  intros H. unfold binds.
  destruct (existsb (Z.eqb id) (ids db)) eqn:E.
  - apply existsb_ids in E. contradiction.
  - apply orb_false_r.
Qed.

Lemma binds_int64 (id : Z) (db : table) :
  Forall (fun i => int64 i = true) (ids db) -> binds id db = int64 id.
Proof.
  intros H. destruct (in_dec Z.eq_dec id (ids db)) as [Hin|Hin].
  - rewrite (binds_present id db Hin). symmetry.
    now apply (proj1 (Forall_forall _ _) H).
  - now apply binds_absent.
Qed.

Lemma editar_usuario_present (id : Z) (user : UserUpdate.t) (db : table) :
  In id (ids db) ->
  editar_usuario id user db =
  (user_of_row (row_of_update id user),
   map (fun r => if Row.id r =? id then row_of_update id user else r) db).
Proof.
  intros H. unfold editar_usuario, sql_update.
  rewrite (binds_present id db H).
  destruct (Nat.eqb_spec (List.length (filter (fun r => Row.id r =? id) db)) 0)
    as [E|E].
  - apply rowcount_zero in E. contradiction.
  - f_equal. apply map_ext. intros r.
    destruct (Z.eqb_spec (Row.id r) id) as [E'|E']; [|reflexivity].
    unfold row_of_update. now rewrite E'.
Qed.

Lemma editar_usuario_absent (id : Z) (user : UserUpdate.t) (db : table) :
  ~ In id (ids db) ->
  editar_usuario id user db =
  (Raise (if int64 id then HTTPException 404 else OverflowError), db).
Proof.
  intros H. unfold editar_usuario.
  rewrite (binds_absent id db H), sql_update_absent by assumption.
  now destruct (int64 id).
Qed.

Lemma editar_usuario_table (id : Z) (user : UserUpdate.t) (db : table) :
  snd (editar_usuario id user db) =
  map (fun r => if Row.id r =? id then row_of_update id user else r) db.
Proof.
  destruct (in_dec Z.eq_dec id (ids db)) as [H|H].
  - now rewrite editar_usuario_present.
  - rewrite editar_usuario_absent by assumption. simpl.
    now rewrite (map_absent _ id db H).
Qed.

Lemma editar_usuario_ids (id : Z) (user : UserUpdate.t) (db : table) :
  ids (snd (editar_usuario id user db)) = ids db.
Proof.
  rewrite editar_usuario_table. unfold ids. rewrite map_map.
  apply map_ext. intros r.
  destruct (Z.eqb_spec (Row.id r) id) as [E|E]; [|reflexivity].
  simpl. now rewrite E.
Qed.

Lemma max_rowid_bound (db : table) (r : Row.t) :
  In r db -> exists m, max_rowid db = Some m /\ Row.id r <= m.
Proof.
  induction db as [|r' db IH]; simpl; [intros []|].
  intros [->|H].
  - destruct (max_rowid db) as [m|]; eexists; split; try reflexivity; lia.
  - destruct (IH H) as [m [Hm Hle]]. rewrite Hm.
    eexists; split; [reflexivity | lia].
Qed.

Lemma next_rowid_above (db : table) (r : Row.t) :
  In r db -> Row.id r < next_rowid db.
Proof.
  intros H. destruct (max_rowid_bound db r H) as [m [Hm Hle]].
  unfold next_rowid. rewrite Hm. lia.
Qed.


Lemma next_rowid_positive (db : table) :
  Forall (fun i => 0 < i) (ids db) -> 0 < next_rowid db.
Proof.
  intros H. destruct db as [|r db]; [reflexivity|].
  assert (Hr : In r (r :: db)) by now left.
  pose proof (next_rowid_above _ _ Hr).
  inversion H; subst. lia.
Qed.

Lemma nuevo_usuario_table (x : UserCreate.t) (db : table) :
  snd (nuevo_usuario x db) = db ++ [row_of_create (next_rowid db) x].
Proof. reflexivity. Qed.


(** ** Histories of requests *)

Lemma new_UserInDB_id (id : Z) (a b c d e f : option string)
  (u : UserInDB.t) :
  new_UserInDB id a b c d e f = Ok u -> UserInDB.id u = id.
Proof.
  intros H. apply (user_of_row_Ok (Row.Build id a b c d e f) u H).
Qed.

Lemma comprehension_ids (rows : list Row.t) (us : list UserInDB.t) :
  comprehension user_of_row rows = Ok us ->
  map UserInDB.id us = map Row.id rows.
Proof.
  intros H. apply comprehension_Ok in H.
  induction H as [|r u rows us Hu _ IH]; simpl; [reflexivity|].
  rewrite IH. f_equal. now apply user_of_row_Ok.
Qed.

Lemma crear_nuevo_usuario_cases (body : Body.t) (db : table) :
  (fst (crear_nuevo_usuario body db) = Raise RequestValidationError /\
   parse_UserCreate body = Raise RequestValidationError /\
   snd (crear_nuevo_usuario body db) = db) \/
  (exists user, parse_UserCreate body = Ok user /\
     crear_nuevo_usuario body db = nuevo_usuario user db).
Proof.
  unfold crear_nuevo_usuario.
  destruct (parse_UserCreate body) as [user|e] eqn:Hp.
  - right. now exists user.
  - left. simpl. enough (e = RequestValidationError) by (subst; auto).
    unfold parse_UserCreate in Hp.
    destruct (Body.username body), (Body.nacimiento body),
      (Body.numero body), (Body.gmail body) as [g|], (Body.profesion body),
      (Body.certificado_N body); try congruence.
    destruct (EmailStr g); congruence.
Qed.

Lemma editar_usuario_route_table (id : Z) (body : Body.t) (db : table) :
  snd (editar_usuario_route id body db) = db \/
  exists user, parse_UserUpdate body = Ok user /\
    snd (editar_usuario_route id body db) = snd (editar_usuario id user db).
Proof.
  unfold editar_usuario_route.
  destruct (parse_UserUpdate body) as [user|e]; [|now left].
  right. exists user. split; [reflexivity|].
  destruct (editar_usuario id user db) as [[u|[c| | | |]] db']; reflexivity.
Qed.

Lemma editar_usuario_Ok (id : Z) (user : UserUpdate.t) (db : table)
  (u : UserInDB.t) :
  fst (editar_usuario id user db) = Ok u ->
  In id (ids db) /\ UserInDB.id u = id.
Proof.
  destruct (in_dec Z.eq_dec id (ids db)) as [Hin|Hin].
  - rewrite editar_usuario_present by assumption. simpl. intros H.
    split; [assumption|]. unfold user_of_row in H.
    now apply new_UserInDB_id in H.
  - rewrite editar_usuario_absent by assumption. discriminate.
Qed.


Lemma serve_ids (q : request) (db : table) :
  exists l, ids (snd (serve q db)) = ids db ++ l /\
    (Forall (fun i => 0 < i) (ids db) -> Forall (fun i => 0 < i) l).
Proof.
  destruct q as [|p|body|id body]; simpl.
  - exists []. now rewrite app_nil_r.
  - exists []. now rewrite app_nil_r.
  - destruct (crear_nuevo_usuario body db) as [r db'] eqn:Hc; simpl.
    destruct (crear_nuevo_usuario_cases body db) as [[_ [_ H]]|[user [_ H]]].
    + rewrite Hc in H; simpl in H; subst. exists []. now rewrite app_nil_r.
    + rewrite Hc in H. apply (f_equal snd) in H.
      rewrite nuevo_usuario_table in H. simpl in H. subst.
      exists [next_rowid db]. split.
      * unfold ids. now rewrite map_app.
      * intros Hpos. constructor; [now apply next_rowid_positive | constructor].
  - destruct (editar_usuario_route id body db) as [r db'] eqn:He; simpl.
    exists []. rewrite app_nil_r. split; [|constructor].
    destruct (editar_usuario_route_table id body db) as [H|[user [_ H]]];
      rewrite He in H; simpl in H; subst; [reflexivity|].
    apply editar_usuario_ids.
Qed.


Lemma run_ids (qs : list request) (db : table) :
  exists l, ids (snd (run qs db)) = ids db ++ l /\
    (Forall (fun i => 0 < i) (ids db) -> Forall (fun i => 0 < i) l).
Proof.
  revert db; induction qs as [|q qs IH]; intros db; simpl.
  - exists []. now rewrite app_nil_r.
  - destruct (serve q db) as [r db'] eqn:Hs.
    destruct (run qs db') as [rs db''] eqn:Hr. simpl.
    destruct (serve_ids q db) as [l1 [E1 P1]]. rewrite Hs in E1; simpl in E1.
    destruct (IH db') as [l2 [E2 P2]]. rewrite Hr in E2; simpl in E2.
    exists (l1 ++ l2). rewrite E2, E1, app_assoc. split; [reflexivity|].
    intros Hpos. apply Forall_app. split; [now apply P1|].
    apply P2. rewrite E1. apply Forall_app. split; [assumption | now apply P1].
Qed.



Lemma serve_keeps_row (q : request) (db : table) (r : Row.t) :
  In r db -> updates_id (Row.id r) q = false -> In r (snd (serve q db)).
Proof.
  intros Hin Hq. destruct q as [|p|body|id body]; simpl; try assumption.
  - destruct (crear_nuevo_usuario body db) as [x db'] eqn:Hc; simpl.
    destruct (crear_nuevo_usuario_cases body db) as [[_ [_ H]]|[user [_ H]]].
    + rewrite Hc in H; simpl in H; now subst.
    + rewrite Hc in H. apply (f_equal snd) in H.
      rewrite nuevo_usuario_table in H. simpl in H. subst. apply in_or_app. now left.
  - destruct (editar_usuario_route id body db) as [x db'] eqn:He; simpl.
    destruct (editar_usuario_route_table id body db) as [H|[user [_ H]]];
      rewrite He in H; simpl in H; subst; [assumption|].
    rewrite editar_usuario_table. apply in_map_iff. exists r.
    split; [|assumption]. simpl in Hq.
    destruct (Z.eqb_spec (Row.id r) id) as [E|E]; [|reflexivity].
    rewrite E, Z.eqb_refl in Hq. discriminate.
Qed.

Lemma run_keeps_row (qs : list request) (db : table) (r : Row.t) :
  In r db -> forallb (fun q => negb (updates_id (Row.id r) q)) qs = true ->
  In r (snd (run qs db)).
Proof.
  revert db; induction qs as [|q qs IH]; intros db Hin Hqs; simpl;
    [assumption|].
  simpl in Hqs. apply andb_true_iff in Hqs as [Hq Hqs].
  apply negb_true_iff in Hq.
  pose proof (serve_keeps_row q db r Hin Hq) as Hs.
  destruct (serve q db) as [x db']. simpl in Hs.
  specialize (IH db' Hs Hqs).
  destruct (run qs db') as [rs db'']. assumption.
Qed.

(** ** Listing an empty table *)

(** C1.  Claimed: when [personas] has no rows, [obtener_usuarios] (serving
    [GET /]) returns the empty list rather than failing.  The code does not:
    over an empty [rows] the body of [for row in rows:] never runs, so
    [users] is never assigned and [return users] raises
    [UnboundLocalError]; the route answers with status 500.  Over a table
    with at least one row the function is the comprehension over all the
    rows, as its sibling [obtener_usuarios_por_profesion] is over the
    selected ones. *)
Theorem obtener_usuarios_empty_table :
  obtener_usuarios [] = Raise UnboundLocalError /\
  status_code (obtener_todos_los_usuarios []) = 500 /\
  (forall r db,
     obtener_usuarios (r :: db) = comprehension user_of_row (r :: db)).
Proof.
  split; [reflexivity|]. split; [reflexivity|].
  intros r db. apply obtener_usuarios_cons.
Qed.

(** ** Updates *)


(** C5.  For every table, every [id] present in it and every update input,
    the update changes only the rows of that [id]: the committed table has
    the same length, a row of another id stays as it was at its place, and
    the row of that [id] is replaced at its place by the row holding [id]
    itself and the six values of the input.  A record the update returns
    carries that [id]. *)
Theorem editar_usuario_frame (db : table) (id : Z) (user : UserUpdate.t) :
  In id (ids db) ->
  let db' := snd (editar_usuario id user db) in
  List.length db' = List.length db /\
  ids db' = ids db /\
  (forall n r, nth_error db n = Some r -> Row.id r <> id ->
     nth_error db' n = Some r) /\
  (forall n r, nth_error db n = Some r -> Row.id r = id ->
     nth_error db' n = Some (row_of_update id user)) /\
  Row.id (row_of_update id user) = id /\
  (forall u, fst (editar_usuario id user db) = Ok u -> UserInDB.id u = id).
Proof.
  intros Hin db'. subst db'.
  split; [rewrite editar_usuario_table; apply length_map|].
  split; [apply editar_usuario_ids|].
  rewrite editar_usuario_table.
  split; [|split; [|split]].
  - intros n r Hn Hr. rewrite nth_error_map, Hn. simpl.
    destruct (Z.eqb_spec (Row.id r) id); [contradiction | reflexivity].
  - intros n r Hn Hr. rewrite nth_error_map, Hn. simpl.
    now rewrite Hr, Z.eqb_refl.
  - reflexivity.
  - intros u Hu. now apply editar_usuario_Ok in Hu.
Qed.

(** ** Creation *)


(** ** Lookup by profession *)


Lemma profesion_is_true (p : string) (r : Row.t) :
  profesion_is p r = true <-> Row.profesion r = Some p.
Proof.
  unfold profesion_is. destruct (Row.profesion r) as [q|].
  - rewrite String.eqb_eq. split; congruence.
  - split; discriminate.
Qed.

Lemma sql_select_profesion_In (p : string) (db : table) (r : Row.t) :
  In r (sql_select_profesion p db) <-> In r db /\ Row.profesion r = Some p.
Proof.
  unfold sql_select_profesion. rewrite filter_In.
  now rewrite profesion_is_true.
Qed.

Lemma sql_select_profesion_nil (p : string) (db : table) :
  sql_select_profesion p db = [] <->
  (forall r, In r db -> Row.profesion r <> Some p).
Proof.
  split.
  - intros H r Hr Hp.
    assert (Hin : In r (sql_select_profesion p db))
      by now apply sql_select_profesion_In.
    rewrite H in Hin. contradiction.
  - intros H. destruct (sql_select_profesion p db) as [|r l] eqn:E;
      [reflexivity|].
    assert (Hin : In r (sql_select_profesion p db)) by (rewrite E; now left).
    apply sql_select_profesion_In in Hin as [Hin Hp].
    now apply H in Hin.
Qed.

(** X24.  For every profession [P] and every table, the rows
    [obtener_usuarios_por_profesion] selects are exactly the rows whose
    [profesion] is the string [P].  When a record can be
    built from each of them, the function returns the records of exactly
    those rows; when no row matches, it returns the empty list and raises
    nothing. *)
Theorem obtener_usuarios_por_profesion_exact (P : string) (db : table) :
  (forall r, In r (sql_select_profesion P db) <->
     In r db /\ Row.profesion r = Some P) /\
  ((forall r, In r db -> Row.profesion r = Some P -> readable r = true) ->
   exists us,
     obtener_usuarios_por_profesion P db = Ok us /\
     Forall2 (fun r u => user_of_row r = Ok u)
       (sql_select_profesion P db) us) /\
  ((forall r, In r db -> Row.profesion r <> Some P) ->
   obtener_usuarios_por_profesion P db = Ok []).
Proof.
  split; [intros r; apply sql_select_profesion_In|]. split.
  - intros H. unfold obtener_usuarios_por_profesion.
    destruct (comprehension_readable (sql_select_profesion P db))
      as [us Hus].
    + intros r Hr. apply sql_select_profesion_In in Hr as [Hr Hp]. auto.
    + exists us. split; [assumption | now apply comprehension_Ok].
  - intros H. unfold obtener_usuarios_por_profesion.
    apply sql_select_profesion_nil in H. now rewrite H.
Qed.

(** X22.  For every profession [P], [GET /users/{profesion}]
    raises [HTTPException(404)] exactly when no stored row has [profesion]
    equal to [P]; and when some row matches and a record can be built from
    every matching row, it returns the records of the matching rows with
    status 200. *)
Theorem profesion_route_404_iff (P : string) (db : table) :
  (obtener_usuarios_por_profesion_route P db = Raise (HTTPException 404) <->
   (forall r, In r db -> Row.profesion r <> Some P)) /\
  ((exists r, In r db /\ Row.profesion r = Some P) ->
   (forall r, In r db -> Row.profesion r = Some P -> readable r = true) ->
   exists us,
     obtener_usuarios_por_profesion_route P db = Ok us /\
     status_code (obtener_usuarios_por_profesion_route P db) = 200 /\
     Forall2 (fun r u => user_of_row r = Ok u)
       (sql_select_profesion P db) us).
Proof.
  unfold obtener_usuarios_por_profesion_route, obtener_usuarios_por_profesion.
  split; [split|].
  - intros H. apply sql_select_profesion_nil.
    destruct (comprehension user_of_row (sql_select_profesion P db))
      as [us|e] eqn:Hc; simpl in H.
    + destruct us as [|u us]; [|discriminate].
      apply comprehension_Ok in Hc. now inversion Hc.
    + apply comprehension_Raise in Hc. subst. discriminate.
  - intros H. apply sql_select_profesion_nil in H. now rewrite H.
  - intros [r [Hr Hp]] Hread.
    destruct (comprehension_readable (sql_select_profesion P db))
      as [us Hus].
    + intros r' Hr'. apply sql_select_profesion_In in Hr' as [Hr' Hp']. auto.
    + exists us. rewrite Hus. simpl.
      apply comprehension_Ok in Hus.
      assert (Hin : In r (sql_select_profesion P db))
        by now apply sql_select_profesion_In.
      destruct us as [|u us].
      * inversion Hus as [E|]. rewrite <- E in Hin. contradiction.
      * auto.
Qed.

Lemma user_of_row_create (id : Z) (x : UserCreate.t) :
  validated x -> user_of_row (row_of_create id x) = Ok (with_id id x).
Proof.
  unfold validated, user_of_row, row_of_create, new_UserInDB; simpl.
  intros ->. reflexivity.
Qed.



(** ** Validation of a create request *)


(** ** Reads after a certificate was erased *)

(** C10.  Let an update that omits [certificado_N] hit a stored row [id],
    and let any requests follow that do not update that row again.  Then
    every read whose result set holds the row fails while building the
    output records: [obtener_usuarios] and the lookup by the profession the
    row now has both raise pydantic's [ValidationError] instead of returning
    a list, and both routes answer 500. *)
Theorem null_certificate_breaks_reads (db : table) (id : Z)
  (user : UserUpdate.t) (qs : list request) :
  In id (ids db) ->
  UserUpdate.certificado_N user = None ->
  forallb (fun q => negb (updates_id id q)) qs = true ->
  let db1 := snd (editar_usuario id user db) in
  let db2 := snd (run qs db1) in
  let P := UserUpdate.profesion user in
  In (row_of_update id user) db2 /\
  obtener_usuarios db2 = Raise ValidationError /\
  obtener_usuarios_por_profesion P db2 = Raise ValidationError /\
  status_code (obtener_todos_los_usuarios db2) = 500 /\
  status_code (obtener_usuarios_por_profesion_route P db2) = 500.
Proof.
  intros Hin Hc Hqs db1 db2 P.
  assert (H1 : In (row_of_update id user) db1).
  { subst db1. rewrite editar_usuario_table.
    unfold ids in Hin. apply in_map_iff in Hin as [r [E Hr]].
    apply in_map_iff. exists r. split; [|assumption].
    now rewrite E, Z.eqb_refl. }
  assert (H2 : In (row_of_update id user) db2).
  { subst db2. now apply run_keeps_row. }
  assert (Hbad : readable (row_of_update id user) = false)
    by now apply null_certificate_unreadable.
  assert (Hall : obtener_usuarios db2 = Raise ValidationError).
  { destruct db2 as [|r db2']; [contradiction|].
    rewrite obtener_usuarios_cons.
    now apply (comprehension_unreadable _ (row_of_update id user)). }
  assert (Hprof : obtener_usuarios_por_profesion P db2 = Raise ValidationError).
  { unfold obtener_usuarios_por_profesion.
    apply (comprehension_unreadable _ (row_of_update id user));
      [|assumption].
    apply sql_select_profesion_In. split; [assumption | reflexivity]. }
  split; [assumption|]. split; [assumption|]. split; [assumption|].
  unfold obtener_todos_los_usuarios, obtener_usuarios_por_profesion_route.
  rewrite Hall, Hprof. split; reflexivity.
Qed.

(** ** The store functions on the database file *)

Lemma nuevo_usuario_io_run (user : UserCreate.t) (w : world) :
  nuevo_usuario_io user w =
  (fst (nuevo_usuario user (disk w)),
   World (snd (nuevo_usuario user (disk w))) (opened w)
     (log w ++ [Connect; Execute; Commit; Close])).
Proof.
  unfold nuevo_usuario_io, nuevo_usuario, get_db_connection, and_then,
    execute, commit, connect, close, ret, lift, sql_insert; simpl.
  now rewrite <- !app_assoc.
Qed.

Lemma obtener_usuarios_io_run (w : world) :
  obtener_usuarios_io w =
  (obtener_usuarios (disk w),
   World (disk w) (opened w) (log w ++ [Connect; Execute; Close])).
Proof.
  unfold obtener_usuarios_io, obtener_usuarios, get_db_connection, and_then,
    execute, connect, close, ret, raise, lift, sql_select_all; simpl.
  destruct (for_row_in (disk w) (disk w) None) as [[us|]|e]; simpl;
    now rewrite <- !app_assoc.
Qed.

Lemma obtener_usuarios_por_profesion_io_run (P : string) (w : world) :
  obtener_usuarios_por_profesion_io P w =
  (obtener_usuarios_por_profesion P (disk w),
   World (disk w) (opened w) (log w ++ [Connect; Execute; Close])).
Proof.
  unfold obtener_usuarios_por_profesion_io, obtener_usuarios_por_profesion,
    get_db_connection, and_then, execute, connect, close, lift; simpl.
  now rewrite <- !app_assoc.
Qed.

Lemma editar_usuario_io_run (id : Z) (user : UserUpdate.t) (w : world) :
  editar_usuario_io id user w =
  (fst (editar_usuario id user (disk w)),
   World (snd (editar_usuario id user (disk w))) (opened w)
     (log w ++
      if in_dec Z.eq_dec id (ids (disk w))
      then [Connect; Execute; Commit; Close]
      else [Connect; Execute; Close])).
Proof.
  unfold editar_usuario_io, editar_usuario, get_db_connection, and_then,
    execute_int, execute, commit, connect, close, raise, lift, sql_update;
    simpl.
  destruct (in_dec Z.eq_dec id (ids (disk w))) as [Hin|Hin].
  - rewrite (binds_present _ _ Hin). simpl.
    destruct (Nat.eqb_spec
                (List.length (filter (fun r => Row.id r =? id) (disk w))) 0)
      as [E|E]; [apply rowcount_zero in E; contradiction|].
    simpl. now rewrite <- !app_assoc.
  - rewrite (binds_absent _ _ Hin).
    destruct (int64 id); simpl; [|now rewrite <- !app_assoc].
    destruct (Nat.eqb_spec
                (List.length (filter (fun r => Row.id r =? id) (disk w))) 0)
      as [E|E]; [|apply rowcount_zero in Hin; contradiction].
    simpl. now rewrite <- !app_assoc.
Qed.


(** X2.  Whether it returns or raises, each of the four store functions
    leaves as many connections open as it found: the one it opened is
    closed again. *)
Theorem connection_released (w : world) :
  (forall user, opened (snd (nuevo_usuario_io user w)) = opened w) /\
  opened (snd (obtener_usuarios_io w)) = opened w /\
  (forall P, opened (snd (obtener_usuarios_por_profesion_io P w)) =
             opened w) /\
  (forall id user, opened (snd (editar_usuario_io id user w)) = opened w).
Proof.
  split; [|split; [|split]].
  - intros user. now rewrite nuevo_usuario_io_run.
  - now rewrite obtener_usuarios_io_run.
  - intros P. now rewrite obtener_usuarios_por_profesion_io_run.
  - intros id user. now rewrite editar_usuario_io_run.
Qed.


(** ** What the reads return *)

Lemma user_of_row_inv (r : Row.t) (u : UserInDB.t) :
  user_of_row r = Ok u ->
  Row.id r = UserInDB.id u /\
  Row.username r = Some (UserInDB.username u) /\
  Row.nacimiento r = Some (UserInDB.nacimiento u) /\
  Row.numero r = Some (UserInDB.numero u) /\
  (exists g, Row.gmail r = Some g /\ EmailStr g = Some (UserInDB.gmail u)) /\
  Row.profesion r = Some (UserInDB.profesion u) /\
  Row.certificado_N r = Some (UserInDB.certificado_N u).
Proof.
  unfold user_of_row, new_UserInDB, str_field, email_field.
  destruct (Row.username r), (Row.nacimiento r), (Row.numero r),
    (Row.gmail r) as [g|]; simpl; try discriminate.
  destruct (EmailStr g) as [g'|] eqn:Hg; simpl; try discriminate.
  destruct (Row.profesion r), (Row.certificado_N r); simpl; try discriminate.
  intros H; inversion H; subst; simpl.
  repeat split; try reflexivity. now exists g.
Qed.

Lemma comprehension_Raise_unreadable (rows : list Row.t) (e : exn) :
  comprehension user_of_row rows = Raise e ->
  exists r, In r rows /\ readable r = false.
Proof.
  induction rows as [|r rows IH]; simpl; [discriminate|].
  destruct (user_of_row r) as [u|x] eqn:Hr; simpl.
  - destruct (comprehension user_of_row rows) as [us|x]; simpl;
      [discriminate|].
    intros H. inversion H; subst. destruct (IH eq_refl) as [r' [Hin Hbad]].
    exists r'. split; [now right | assumption].
  - intros _. exists r. split; [now left|].
    unfold readable. now rewrite Hr.
Qed.

(** X5.  The three outcomes of [obtener_usuarios].  It raises
    [UnboundLocalError] exactly on the empty table; it raises
    [ValidationError] exactly when some row cannot be built into a record;
    and it returns a list exactly when the table has a row and every row
    can be built, the list then holding the records of the rows one by one
    in table order. *)
Theorem obtener_usuarios_outcome (db : table) :
  (obtener_usuarios db = Raise UnboundLocalError <-> db = []) /\
  (obtener_usuarios db = Raise ValidationError <->
   exists r, In r db /\ readable r = false) /\
  (forall us,
     obtener_usuarios db = Ok us <->
     db <> [] /\ Forall2 (fun r u => user_of_row r = Ok u) db us).
Proof.
  destruct db as [|r db].
  - split; [|split].
    + split; reflexivity.
    + split; [discriminate | intros [r [[] _]]].
    + intros us. split; [discriminate | intros [H _]; now contradiction H].
  - rewrite obtener_usuarios_cons. split; [|split].
    + split; [|discriminate].
      intros H. apply comprehension_Raise in H. discriminate.
    + split.
      * apply comprehension_Raise_unreadable.
      * intros [r' [Hin Hbad]]. now apply (comprehension_unreadable _ r').
    + intros us. rewrite comprehension_Ok. split.
      * intros H. split; [discriminate | assumption].
      * now intros [_ H].
Qed.

Lemma comprehension_filter (P : string) (rows : list Row.t)
  (us : list UserInDB.t) :
  Forall2 (fun r u => user_of_row r = Ok u) rows us ->
  comprehension user_of_row (filter (profesion_is P) rows) =
  Ok (filter (fun u => String.eqb (UserInDB.profesion u) P) us).
Proof.
  induction 1 as [|r u rows us Hu _ IH]; simpl; [reflexivity|].
  pose proof (user_of_row_inv r u Hu) as [_ [_ [_ [_ [_ [Hp _]]]]]].
  unfold profesion_is at 1. rewrite Hp.
  destruct (String.eqb (UserInDB.profesion u) P); [|assumption].
  simpl. now rewrite Hu, IH.
Qed.

(** X6.  Whenever [obtener_usuarios] returns a list, the lookup by any
    profession [P] returns too, and its answer is that list restricted to
    the records whose [profesion] is [P]. *)
Theorem lookup_is_filter_of_list (P : string) (db : table)
  (us : list UserInDB.t) :
  obtener_usuarios db = Ok us ->
  obtener_usuarios_por_profesion P db =
  Ok (filter (fun u => String.eqb (UserInDB.profesion u) P) us).
Proof.
  intros H. destruct db as [|r db]; [discriminate|].
  rewrite obtener_usuarios_cons in H. apply comprehension_Ok in H.
  unfold obtener_usuarios_por_profesion, sql_select_profesion.
  now apply comprehension_filter.
Qed.

(** X7.  Every record a lookup by profession [P] returns has [P] as its
    [profesion], and the identifiers of the records are those of the
    selected rows, in the same order; all of them are identifiers of the
    table. *)
Theorem lookup_records_have_profesion (P : string) (db : table)
  (us : list UserInDB.t) :
  obtener_usuarios_por_profesion P db = Ok us ->
  Forall (fun u => UserInDB.profesion u = P) us /\
  map UserInDB.id us = map Row.id (sql_select_profesion P db) /\
  incl (map UserInDB.id us) (ids db).
Proof.
  unfold obtener_usuarios_por_profesion. intros H.
  assert (Hids := comprehension_ids _ _ H).
  split; [|split; [assumption|]].
  - apply comprehension_Ok in H.
    assert (Hsel : Forall (fun r => Row.profesion r = Some P)
                     (sql_select_profesion P db)).
    { apply Forall_forall. intros r Hr.
      now apply sql_select_profesion_In in Hr. }
    clear Hids.
    induction H as [|r u rows us' Hu _ IH]; constructor.
    + inversion Hsel as [|? ? Hp _]; subst.
      pose proof (user_of_row_inv r u Hu) as [_ [_ [_ [_ [_ [Hq _]]]]]].
      congruence.
    + apply IH. now inversion Hsel.
  - rewrite Hids. intros i Hi. apply in_map_iff in Hi as [r [E Hr]].
    apply sql_select_profesion_In in Hr as [Hr _]. subst.
    unfold ids. now apply in_map.
Qed.

(** ** More on updates *)

Lemma editar_usuario_fst (id : Z) (user : UserUpdate.t) (db : table) :
  fst (editar_usuario id user db) =
  if in_dec Z.eq_dec id (ids db)
  then user_of_row (row_of_update id user)
  else Raise (if int64 id then HTTPException 404 else OverflowError).
Proof.
  destruct (in_dec Z.eq_dec id (ids db)) as [Hin|Hin].
  - now rewrite editar_usuario_present.
  - now rewrite editar_usuario_absent.
Qed.




Lemma overwrite_twice (id : Z) (u1 u2 : UserUpdate.t) (db : table) :
  map (fun r => if Row.id r =? id then row_of_update id u2 else r)
    (map (fun r => if Row.id r =? id then row_of_update id u1 else r) db) =
  map (fun r => if Row.id r =? id then row_of_update id u2 else r) db.
Proof.
  rewrite map_map. apply map_ext. intros r.
  destruct (Z.eqb_spec (Row.id r) id) as [E|E].
  - simpl. now rewrite Z.eqb_refl.
  - destruct (Z.eqb_spec (Row.id r) id); [contradiction | reflexivity].
Qed.

(** X9.  [editar_usuario] is idempotent: repeating an update on the table
    the first one left gives the same outcome and leaves the same table. *)
Theorem editar_usuario_idempotent (id : Z) (user : UserUpdate.t)
  (db : table) :
  editar_usuario id user (snd (editar_usuario id user db)) =
  editar_usuario id user db.
Proof.
  rewrite (surjective_pairing
             (editar_usuario id user (snd (editar_usuario id user db)))).
  rewrite (surjective_pairing (editar_usuario id user db)) at 3.
  f_equal.
  - rewrite !editar_usuario_fst, editar_usuario_ids. reflexivity.
  - rewrite editar_usuario_table. rewrite (editar_usuario_table id user db).
    apply overwrite_twice.
Qed.


(** ** More on histories *)

(** X11.  No request deletes a row or changes an identifier: after any
    sequence of requests the identifiers the table had are still there, at
    the same places and in the same order, followed by those of the rows
    created since; the table never gets shorter. *)
Theorem run_never_deletes (qs : list request) (db : table) :
  exists l,
    ids (snd (run qs db)) = ids db ++ l /\
    (List.length db <= List.length (snd (run qs db)))%nat.
Proof.
  destruct (run_ids qs db) as [l [E _]]. exists l. split; [assumption|].
  apply (f_equal (@List.length Z)) in E. unfold ids in E.
  rewrite length_app, !length_map in E. lia.
Qed.

Lemma serve_keeps_place (q : request) (db : table) (n : nat) (r : Row.t) :
  nth_error db n = Some r -> updates_id (Row.id r) q = false ->
  nth_error (snd (serve q db)) n = Some r.
Proof.
  intros Hn Hq. destruct q as [|p|body|id body]; simpl; try assumption.
  - destruct (crear_nuevo_usuario body db) as [x db'] eqn:Hc; simpl.
    destruct (crear_nuevo_usuario_cases body db) as [[_ [_ H]]|[user [_ H]]].
    + rewrite Hc in H; simpl in H; now subst.
    + rewrite Hc in H. apply (f_equal snd) in H.
      rewrite nuevo_usuario_table in H. simpl in H. subst.
      rewrite nth_error_app1; [assumption|].
      apply nth_error_Some. congruence.
  - destruct (editar_usuario_route id body db) as [x db'] eqn:He; simpl.
    destruct (editar_usuario_route_table id body db) as [H|[user [_ H]]];
      rewrite He in H; simpl in H; subst; [assumption|].
    rewrite editar_usuario_table, nth_error_map, Hn. simpl. simpl in Hq.
    now rewrite Z.eqb_sym, Hq.
Qed.

(** X12.  A stored row keeps its place and all its values through any
    sequence of requests among which no [PUT] is addressed to its
    identifier. *)
Theorem unaddressed_row_survives (qs : list request) (db : table)
  (n : nat) (r : Row.t) :
  nth_error db n = Some r ->
  forallb (fun q => negb (updates_id (Row.id r) q)) qs = true ->
  nth_error (snd (run qs db)) n = Some r.
Proof.
  revert db; induction qs as [|q qs IH]; intros db Hn Hqs; simpl;
    [assumption|].
  simpl in Hqs. apply andb_true_iff in Hqs as [Hq Hqs].
  apply negb_true_iff in Hq.
  pose proof (serve_keeps_place q db n r Hn Hq) as Hs.
  destruct (serve q db) as [x db']. simpl in Hs.
  specialize (IH db' Hs Hqs).
  destruct (run qs db') as [rs db'']. assumption.
Qed.

Lemma parse_UserCreate_Ok (body : Body.t) (user : UserCreate.t) :
  parse_UserCreate body = Ok user ->
  exists g, Body.gmail body = Some g /\
    EmailStr g = Some (UserCreate.gmail user).
Proof.
  unfold parse_UserCreate.
  destruct (Body.username body), (Body.nacimiento body), (Body.numero body),
    (Body.gmail body) as [g|], (Body.profesion body),
    (Body.certificado_N body); try discriminate.
  destruct (EmailStr g) as [g'|] eqn:Hg; [|discriminate].
  intros H; inversion H; subst; simpl. now exists g.
Qed.

Lemma parse_UserUpdate_Ok (body : Body.t) (user : UserUpdate.t) :
  parse_UserUpdate body = Ok user ->
  UserUpdate.certificado_N user = Body.certificado_N body /\
  exists g, Body.gmail body = Some g /\
    EmailStr g = Some (UserUpdate.gmail user).
Proof.
  unfold parse_UserUpdate.
  destruct (Body.username body), (Body.nacimiento body), (Body.numero body),
    (Body.gmail body) as [g|], (Body.profesion body); try discriminate.
  destruct (EmailStr g) as [g'|] eqn:Hg; [|discriminate].
  intros H; inversion H; subst; simpl. split; [reflexivity | now exists g].
Qed.

Lemma row_of_update_readable (id : Z) (user : UserUpdate.t) (c : string) :
  EmailStr (UserUpdate.gmail user) = Some (UserUpdate.gmail user) ->
  UserUpdate.certificado_N user = Some c ->
  readable (row_of_update id user) = true.
Proof.
  intros Hg Hc.
  unfold readable, user_of_row, row_of_update, new_UserInDB; simpl.
  now rewrite Hg, Hc.
Qed.

Lemma serve_readable (q : request) (db : table) :
  idempotent -> carries_certificate q = true ->
  (forall r, In r db -> readable r = true) ->
  forall r, In r (snd (serve q db)) -> readable r = true.
Proof.
  intros Hid Hq Hdb r. destruct q as [|p|body|id body]; simpl;
    try apply Hdb.
  - destruct (crear_nuevo_usuario body db) as [x db'] eqn:Hc; simpl.
    destruct (crear_nuevo_usuario_cases body db) as [[_ [_ H]]|[user [Hp H]]].
    + rewrite Hc in H; simpl in H; subst. apply Hdb.
    + rewrite Hc in H. apply (f_equal snd) in H.
      rewrite nuevo_usuario_table in H. simpl in H. subst.
      intros Hr. apply in_app_or in Hr as [Hr|[<-|[]]]; [now apply Hdb|].
      apply parse_UserCreate_Ok in Hp as [g [_ Hg]]. apply Hid in Hg.
      unfold readable. now rewrite (user_of_row_create _ _ Hg).
  - destruct (editar_usuario_route id body db) as [x db'] eqn:He; simpl.
    destruct (editar_usuario_route_table id body db) as [H|[user [Hp H]]];
      rewrite He in H; simpl in H; subst; [apply Hdb|].
    rewrite editar_usuario_table. intros Hr.
    apply in_map_iff in Hr as [r0 [E Hr0]].
    destruct (Z.eqb_spec (Row.id r0) id); [|subst; now apply Hdb].
    subst r. apply parse_UserUpdate_Ok in Hp as [Hc [g [_ Hg]]].
    apply Hid in Hg. simpl in Hq. rewrite <- Hc in Hq.
    destruct (UserUpdate.certificado_N user) as [c|] eqn:Hcert;
      [|discriminate].
    now apply (row_of_update_readable id user c).
Qed.

(** X13.  Let the e-mail validation accept what it returned.  If a record
    can be built from every row of the table, then after any sequence of
    requests in which every [PUT] carries a [certificado_N] a record can
    still be built from every row; [GET /] then returns a list as soon as
    the table has a row. *)
Theorem readable_preserved (qs : list request) (db : table) :
  idempotent ->
  (forall r, In r db -> readable r = true) ->
  forallb carries_certificate qs = true ->
  (forall r, In r (snd (run qs db)) -> readable r = true) /\
  (snd (run qs db) <> [] ->
   exists us, obtener_todos_los_usuarios (snd (run qs db)) = Ok us).
Proof.
  intros Hid Hdb Hqs.
  assert (H : forall r, In r (snd (run qs db)) -> readable r = true).
  { revert db Hdb; induction qs as [|q qs IH]; intros db Hdb; simpl;
      [assumption|].
    simpl in Hqs. apply andb_true_iff in Hqs as [Hq Hqs].
    pose proof (serve_readable q db Hid Hq Hdb) as Hs.
    destruct (serve q db) as [x db']. simpl in Hs.
    specialize (IH Hqs db' Hs). destruct (run qs db') as [rs db''].
    assumption. }
  split; [assumption|].
  intros Hne. unfold obtener_todos_los_usuarios.
  destruct (snd (run qs db)) as [|r db'] eqn:E; [now contradiction Hne|].
  rewrite obtener_usuarios_cons. now apply comprehension_readable.
Qed.


Lemma Forall2_In_l {A B : Type} (R : A -> B -> Prop) (l : list A)
  (l' : list B) (a : A) :
  Forall2 R l l' -> In a l -> exists b, In b l' /\ R a b.
Proof.
  induction 1 as [|x y l l' Hxy _ IH]; intros Hin; [contradiction|].
  destruct Hin as [->|Hin].
  - exists y. split; [now left | assumption].
  - destruct (IH Hin) as [b [Hb Hab]]. exists b. split; [now right | auto].
Qed.

(** X15.  After an update that returned a record [u]: the lookup by the new
    profession, when records can be built from the rows it selects, returns
    a list that holds [u]; and no lookup by another profession returns a
    record with the updated identifier. *)
Theorem update_then_lookup (id : Z) (user : UserUpdate.t) (db : table)
  (u : UserInDB.t) :
  fst (editar_usuario id user db) = Ok u ->
  let db' := snd (editar_usuario id user db) in
  ((forall r, In r db' ->
      Row.profesion r = Some (UserUpdate.profesion user) ->
      readable r = true) ->
   exists us,
     obtener_usuarios_por_profesion (UserUpdate.profesion user) db' = Ok us /\
     In u us) /\
  (forall P us, P <> UserUpdate.profesion user ->
     obtener_usuarios_por_profesion P db' = Ok us ->
     ~ In id (map UserInDB.id us)).
Proof.
  intros Hu db'. pose proof (editar_usuario_Ok _ _ _ _ Hu) as [Hin _].
  rewrite editar_usuario_fst in Hu.
  destruct (in_dec Z.eq_dec id (ids db)); [|contradiction].
  assert (Hrow : In (row_of_update id user) db').
  { subst db'. rewrite editar_usuario_table.
    unfold ids in Hin. apply in_map_iff in Hin as [r [E Hr]].
    apply in_map_iff. exists r. split; [|assumption].
    now rewrite E, Z.eqb_refl. }
  split.
  - intros Hread.
    destruct (comprehension_readable
                (sql_select_profesion (UserUpdate.profesion user) db'))
      as [us Hus].
    { intros r Hr. apply sql_select_profesion_In in Hr as [Hr Hp]. auto. }
    exists us. split; [assumption|].
    apply comprehension_Ok in Hus.
    destruct (Forall2_In_l _ _ _ (row_of_update id user) Hus)
      as [u' [Hu' E]].
    { apply sql_select_profesion_In. split; [assumption | reflexivity]. }
    congruence.
  - intros P us HP Hus Hid.
    unfold obtener_usuarios_por_profesion in Hus.
    rewrite (comprehension_ids _ _ Hus) in Hid.
    apply in_map_iff in Hid as [r [E Hr]].
    apply sql_select_profesion_In in Hr as [Hr Hp].
    subst db'. rewrite editar_usuario_table in Hr.
    apply in_map_iff in Hr as [r0 [E0 Hr0]].
    destruct (Z.eqb_spec (Row.id r0) id) as [E1|E1].
    + subst r. simpl in Hp. congruence.
    + subst r. contradiction.
Qed.

(** ** More on creation *)


(** X17.  The body the page [add_user] (and the script [peticiones.py])
    sends has no [certificado_N]: whatever the form holds, [POST /users]
    answers it 422 and inserts nothing. *)
Theorem new_user_refused (username nacimiento numero gmail profesion : string)
  (db : table) :
  crear_nuevo_usuario (new_user username nacimiento numero gmail profesion)
    db = (Raise RequestValidationError, db) /\
  status_code
    (fst (crear_nuevo_usuario
            (new_user username nacimiento numero gmail profesion) db)) = 422.
Proof. split; reflexivity. Qed.

(** ** Status codes *)


End Api.

(** ** The model run on concrete requests *)

Lemma obtener_usuarios_sample :
  obtener_usuarios at_sign_EmailStr [Sample.ana_row; Sample.pilot_row] =
  Ok [with_id 1 Sample.ana;
      UserInDB.Build 2 "luz" "1979-09-09" "888" "luz@x.com" "pilot" "c4"].
Proof. reflexivity. Qed.

Lemma profesion_is_case_sensitive :
  sql_select_profesion "Chef" [Sample.ana_row; Sample.pilot_row] = [] /\
  sql_select_profesion "chef" [Sample.ana_row; Sample.pilot_row] =
    [Sample.ana_row].
Proof. split; reflexivity. Qed.

Lemma erased_table_reached :
  snd (run at_sign_EmailStr
         [PostUser Sample.ana_body; PutUser 1 Sample.sin_certificado_body] [])
  = [Sample.ana_erased].
Proof. reflexivity. Qed.

(** *** Witnesses *)


Lemma editar_usuario_frame_witness :
  nth_error
    (snd (editar_usuario at_sign_EmailStr 1 Sample.con_certificado
            [Sample.ana_row; Sample.pilot_row])) 1 = Some Sample.pilot_row.
Proof.
  destruct (editar_usuario_frame at_sign_EmailStr
              [Sample.ana_row; Sample.pilot_row] 1 Sample.con_certificado
              (or_introl eq_refl)) as [_ [_ [H _]]].
  apply (H 1%nat Sample.pilot_row eq_refl). discriminate.
Defined.



Lemma obtener_usuarios_por_profesion_exact_witness :
  exists us,
    obtener_usuarios_por_profesion at_sign_EmailStr "chef"
      [Sample.ana_row; Sample.pilot_row] = Ok us /\
    Forall2 (fun r u => user_of_row at_sign_EmailStr r = Ok u)
      (sql_select_profesion "chef" [Sample.ana_row; Sample.pilot_row]) us.
Proof.
  refine (proj1 (proj2 (obtener_usuarios_por_profesion_exact at_sign_EmailStr
                          "chef" [Sample.ana_row; Sample.pilot_row])) _).
  intros r [<-|[<-|[]]] H; [reflexivity | discriminate H].
Defined.

Lemma profesion_route_404_iff_witness :
  exists us,
    obtener_usuarios_por_profesion_route at_sign_EmailStr "chef"
      [Sample.ana_row; Sample.pilot_row] = Ok us /\
    status_code
      (obtener_usuarios_por_profesion_route at_sign_EmailStr "chef"
         [Sample.ana_row; Sample.pilot_row]) = 200 /\
    Forall2 (fun r u => user_of_row at_sign_EmailStr r = Ok u)
      (sql_select_profesion "chef" [Sample.ana_row; Sample.pilot_row]) us.
Proof.
  refine (proj2 (profesion_route_404_iff at_sign_EmailStr "chef"
                   [Sample.ana_row; Sample.pilot_row]) _ _).
  - exists Sample.ana_row. split; [now left | reflexivity].
  - intros r [<-|[<-|[]]] H; [reflexivity | discriminate H].
Defined.


Lemma null_certificate_breaks_reads_witness :
  obtener_usuarios at_sign_EmailStr
    (snd (run at_sign_EmailStr [GetAll; PutUser 2 Sample.ana_body]
            (snd (editar_usuario at_sign_EmailStr 1 Sample.sin_certificado
                    [Sample.ana_row; Sample.pilot_row])))) =
  Raise ValidationError.
Proof.
  destruct (null_certificate_breaks_reads at_sign_EmailStr
              [Sample.ana_row; Sample.pilot_row] 1 Sample.sin_certificado
              [GetAll; PutUser 2 Sample.ana_body]
              (or_introl eq_refl) eq_refl eq_refl) as [_ [H _]].
  exact H.
Defined.

(** *** Defects of the code

    The table [[Sample.ana_erased]] is what the API itself leaves behind
    after [POST /users] with the example record and [PUT /users/1] without
    [certificado_N] (see [erased_table_reached]): [UserUpdate] lets the
    certificate be left out and the update stores NULL for it, while
    [UserInDB], which every read builds from every row of its result,
    requires a string. *)

(** C2 (code defect).  Claimed: [GET /users/{profesion}] answers 404
    exactly when no row has the profession, and otherwise returns the
    matching records with status 200, as the docstring of the route says.
    The code does not: on the table above a row matches, and the route
    neither answers 404 nor returns, because building the record from the
    stored NULL raises [ValidationError]. *)
Lemma profesion_route_unreadable_row :
  snd (run at_sign_EmailStr
         [PostUser Sample.ana_body; PutUser 1 Sample.sin_certificado_body] [])
  = [Sample.ana_erased] /\
  Row.profesion Sample.ana_erased = Some "chef" /\
  obtener_usuarios_por_profesion_route at_sign_EmailStr "chef"
    [Sample.ana_erased] = Raise ValidationError /\
  ~ ((exists r, In r [Sample.ana_erased] /\ Row.profesion r = Some "chef") ->
     exists us,
       obtener_usuarios_por_profesion_route at_sign_EmailStr "chef"
         [Sample.ana_erased] = Ok us /\
       status_code
         (obtener_usuarios_por_profesion_route at_sign_EmailStr "chef"
            [Sample.ana_erased]) = 200).
Proof.
  split; [reflexivity|]. split; [reflexivity|]. split; [reflexivity|].
  intros H. destruct H as [us [H _]].
  - exists Sample.ana_erased. split; [now left | reflexivity].
  - discriminate H.
Qed.

(** C7 (code defect).  Claimed: after every create, reading back gives the
    input extended with the assigned identifier.  The code does not: on the
    table above the create succeeds with identifier 2, and neither read of
    the API returns anything afterwards; both raise [ValidationError] on the
    row of [ana], which shares the profession. *)
Lemma create_then_lookup_unreadable_row :
  fst (nuevo_usuario at_sign_EmailStr Sample.bruno [Sample.ana_erased]) =
    Ok (with_id 2 Sample.bruno) /\
  obtener_usuarios_por_profesion at_sign_EmailStr "chef"
    (snd (nuevo_usuario at_sign_EmailStr Sample.bruno [Sample.ana_erased])) =
    Raise ValidationError /\
  obtener_usuarios at_sign_EmailStr
    (snd (nuevo_usuario at_sign_EmailStr Sample.bruno [Sample.ana_erased])) =
    Raise ValidationError /\
  ~ (exists us,
       obtener_usuarios_por_profesion at_sign_EmailStr "chef"
         (snd (nuevo_usuario at_sign_EmailStr Sample.bruno
                 [Sample.ana_erased])) = Ok us /\
       filter (fun u => UserInDB.id u =? 2) us = [with_id 2 Sample.bruno]).
Proof.
  split; [reflexivity|]. split; [reflexivity|]. split; [reflexivity|].
  intros [us [H _]]. discriminate H.
Qed.

(** C8 (code defect).  Claimed: for every table
    [obtener_usuarios_por_profesion] returns exactly the rows of the given
    profession, as its docstring and its annotation [List[UserInDB]] say.
    The code does not: on the table above the statement selects one row and
    the function returns no list; it raises [ValidationError]. *)
Lemma obtener_usuarios_por_profesion_unreadable_row :
  sql_select_profesion "chef" [Sample.ana_erased] = [Sample.ana_erased] /\
  obtener_usuarios_por_profesion at_sign_EmailStr "chef" [Sample.ana_erased] =
    Raise ValidationError /\
  ~ (exists us,
       obtener_usuarios_por_profesion at_sign_EmailStr "chef"
         [Sample.ana_erased] = Ok us).
Proof.
  split; [reflexivity|]. split; [reflexivity|].
  intros [us H]. discriminate H.
Qed.

(** C3 (code defect).  Claimed: for every [id] that identifies no stored
    row the update signals 404 and leaves the table as it was, as the
    docstring of the route says.  The code does not for an [id] outside the
    signed 64-bit integers: no row has the identifier 2^63, the table stays
    as it was, but [cursor.execute] raises [OverflowError] and the route
    answers 500. *)
Lemma editar_usuario_out_of_range :
  ~ In (2 ^ 63) (ids [Sample.ana_row]) /\
  editar_usuario at_sign_EmailStr (2 ^ 63) Sample.con_certificado
    [Sample.ana_row] = (Raise OverflowError, [Sample.ana_row]) /\
  editar_usuario_route at_sign_EmailStr (2 ^ 63) Sample.ana_body
    [Sample.ana_row] = (Raise (HTTPException 500), [Sample.ana_row]) /\
  status_code
    (fst (editar_usuario_route at_sign_EmailStr (2 ^ 63) Sample.ana_body
            [Sample.ana_row])) <> 404.
Proof.
  split; [simpl; intros [H|[]]; discriminate H|].
  split; [reflexivity|]. split; [reflexivity|]. discriminate.
Qed.

(** *** Counterexample *)


(** ** The page *)

Ltac view_cases :=
  repeat match goal with
    | |- context [match ?x with _ => _ end] =>
        lazymatch x with
        | context [match _ with _ => _ end] => fail
        | _ => destruct x; simpl
        end
    end.

Lemma users_by_profession_state {response json : Type}
  (lib : Pagina.library response json) (profesion : string)
  (st : Pagina.state) :
  Pagina.state_of (Pagina.users_by_profession lib profesion st) = st.
Proof.
  unfold Pagina.users_by_profession, Pagina.next, Pagina.call,
    Pagina.return_.
  view_cases; reflexivity.
Qed.

(** X19.  [add_user] never changes what the page keeps: whatever the
    method, the form and the answers of the libraries, the list [users] and
    the file [users.json] are after the call what they were before it, and
    the call never ends in a redirect.  The statements that append to
    [users], write the file and redirect stand after a [return]. *)
Theorem add_user_keeps_state {response json : Type}
  (lib : Pagina.library response json) (method : string)
  (form : list (string * string)) (st : Pagina.state) :
  Pagina.state_of (Pagina.add_user lib method form st) = st /\
  (forall endpoint st',
     Pagina.add_user lib method form st <>
     Pagina.Return (Pagina.redirect endpoint) st').
Proof.
  unfold Pagina.add_user, Pagina.next, Pagina.request_form, Pagina.call,
    Pagina.return_.
  view_cases; split; try reflexivity; intros; discriminate.
Qed.

(** X20.  The page keeps no state: no sequence of requests changes the list
    [users] or the file [users.json].  So [index] renders, after any
    requests since the module was loaded, the empty list. *)
Theorem index_always_empty {response json : Type}
  (lib : Pagina.library response json) (qs : list Pagina.request) :
  (forall st, Pagina.run lib qs st = st) /\
  (forall file,
     Pagina.index (json := json) (Pagina.run lib qs (Pagina.loaded file)) =
     Pagina.Return (Pagina.render_index []) (Pagina.loaded file)).
Proof.
  assert (H : forall st, Pagina.run lib qs st = st).
  { induction qs as [|q qs IH]; intros st; simpl; [reflexivity|].
    assert (E : Pagina.state_of (Pagina.serve lib q st) = st).
    { destruct q as [|profesion|method form]; simpl.
      - reflexivity.
      - apply users_by_profession_state.
      - unfold Pagina.add_user, Pagina.next, Pagina.request_form,
          Pagina.call, Pagina.return_.
        view_cases; reflexivity. }
    rewrite E. apply IH. }
  split; [assumption|]. intros file. now rewrite H.
Qed.

(** *** Witnesses of the further properties *)

Lemma at_sign_EmailStr_idempotent : idempotent at_sign_EmailStr.
Proof.
  intros s s' H. unfold at_sign_EmailStr in H.
  destruct s as [|c rest]; [discriminate|].
  destruct (Ascii.eqb c "@"%char) eqn:Hc; [discriminate|].
  destruct (has_at rest) eqn:Hr; [|discriminate].
  inversion H; subst. simpl. now rewrite Hc, Hr.
Qed.


Lemma lookup_is_filter_of_list_witness :
  obtener_usuarios_por_profesion at_sign_EmailStr "pilot"
    [Sample.ana_row; Sample.pilot_row] =
  Ok [UserInDB.Build 2 "luz" "1979-09-09" "888" "luz@x.com" "pilot" "c4"].
Proof.
  exact (lookup_is_filter_of_list at_sign_EmailStr "pilot"
           [Sample.ana_row; Sample.pilot_row]
           [with_id 1 Sample.ana;
            UserInDB.Build 2 "luz" "1979-09-09" "888" "luz@x.com" "pilot"
              "c4"] eq_refl).
Defined.

Lemma lookup_records_have_profesion_witness :
  Forall (fun u => UserInDB.profesion u = "chef") [with_id 1 Sample.ana].
Proof.
  exact (proj1 (lookup_records_have_profesion at_sign_EmailStr "chef"
                  [Sample.ana_row; Sample.pilot_row] [with_id 1 Sample.ana]
                  eq_refl)).
Defined.





Lemma unaddressed_row_survives_witness :
  nth_error
    (snd (run at_sign_EmailStr
            [PutUser 2 Sample.sin_certificado_body; PostUser Sample.ana_body]
            [Sample.ana_row; Sample.pilot_row])) 0 = Some Sample.ana_row.
Proof.
  exact (unaddressed_row_survives at_sign_EmailStr
           [PutUser 2 Sample.sin_certificado_body; PostUser Sample.ana_body]
           [Sample.ana_row; Sample.pilot_row] 0%nat Sample.ana_row
           eq_refl eq_refl).
Defined.

Lemma readable_preserved_witness :
  exists us,
    obtener_todos_los_usuarios at_sign_EmailStr
      (snd (run at_sign_EmailStr
              [PostUser Sample.ana_body; PutUser 1 Sample.ana_body] [])) =
    Ok us.
Proof.
  refine (proj2 (readable_preserved at_sign_EmailStr
                   [PostUser Sample.ana_body; PutUser 1 Sample.ana_body] []
                   at_sign_EmailStr_idempotent _ eq_refl) _).
  - intros r [].
  - discriminate.
Defined.


Lemma update_then_lookup_witness :
  exists us,
    obtener_usuarios_por_profesion at_sign_EmailStr "chef"
      (snd (editar_usuario at_sign_EmailStr 1 Sample.con_certificado
              [Sample.ana_row; Sample.pilot_row])) = Ok us /\
    In (UserInDB.Build 1 "ana" "1990-01-01" "556" "ana@x.com" "chef" "c2") us.
Proof.
  refine (proj1 (update_then_lookup at_sign_EmailStr 1 Sample.con_certificado
                   [Sample.ana_row; Sample.pilot_row]
                   (UserInDB.Build 1 "ana" "1990-01-01" "556" "ana@x.com"
                      "chef" "c2") eq_refl) _).
  intros r Hr. vm_compute in Hr.
  destruct Hr as [<-|[<-|[]]]; intros H; [reflexivity | discriminate H].
Defined.

